(** * The item service of [main.py]: model and checked properties

    [main.py] is a FastAPI application with five handlers over one SQLite
    table, [items], reached through a SQLAlchemy session.  This file embeds

    - [hashlib.sha256] (FIPS 180-4) and [hexdigest], which [generate_id] calls;
    - the pydantic models [Item], [ItemCreate], [ItemUpdate] and the mapped
      class [DBItem];
    - the session operations the handlers use, over a table keyed by its
      primary key;
    - the handlers [create_item], [read_item], [read_all_items],
      [update_item] and [delete_item].

    Conventions.  A Python [str] is a Rocq [string] read as its UTF-8
    encoding, which is what [str.encode()] returns; [None] is [None] of an
    [option].  The reading of [time.time()] is an input of the code that
    consumes it, held as the text the f-string renders it to.  A [str] that
    holds a lone surrogate has no UTF-8 encoding: [generate_id] is therefore
    also given on code points, as [generate_id_str], where [encode()] can
    raise. *)

From Stdlib Require Import ZArith Lia List Ascii String.
From stdpp Require Import base option list strings gmap fin_maps.

Local Open Scope Z_scope.

(** ** SHA-256 *)

Module SHA256.

(** 32-bit words are integers in [0, 2^32). *)
Definition wrap32 (x : Z) : Z := x mod 2 ^ 32.
Definition add32 (x y : Z) : Z := wrap32 (x + y).
Definition not32 (x : Z) : Z := Z.lxor x (2 ^ 32 - 1).
Definition rotr (n x : Z) : Z :=
  Z.lor (Z.shiftr x n) (wrap32 (Z.shiftl x (32 - n))).

Definition Ch (x y z : Z) : Z := Z.lxor (Z.land x y) (Z.land (not32 x) z).
Definition Maj (x y z : Z) : Z :=
  Z.lxor (Z.lxor (Z.land x y) (Z.land x z)) (Z.land y z).
Definition bsig0 (x : Z) : Z := Z.lxor (Z.lxor (rotr 2 x) (rotr 13 x)) (rotr 22 x).
Definition bsig1 (x : Z) : Z := Z.lxor (Z.lxor (rotr 6 x) (rotr 11 x)) (rotr 25 x).
Definition ssig0 (x : Z) : Z := Z.lxor (Z.lxor (rotr 7 x) (rotr 18 x)) (Z.shiftr x 3).
Definition ssig1 (x : Z) : Z := Z.lxor (Z.lxor (rotr 17 x) (rotr 19 x)) (Z.shiftr x 10).

(** The constants are fractional parts of roots of the first primes. *)
Fixpoint sieve (fuel : nat) (cand : Z) (found : list Z) : list Z :=
  match fuel with
  | O => found
  | S fuel' =>
      if forallb (fun p => negb (cand mod p =? 0)) found
      then sieve fuel' (cand + 1) (found ++ [cand])
      else sieve fuel' (cand + 1) found
  end.

Definition primes64 : list Z := Eval vm_compute in sieve 310 2 [].

(** Largest [r] with [r ^ 3 <= n], found bit by bit from [2 ^ bits]. *)
Fixpoint icbrt (bits : nat) (n r : Z) : Z :=
  match bits with
  | O => r
  | S b =>
      let r' := r + 2 ^ Z.of_nat b in
      icbrt b n (if r' * r' * r' <=? n then r' else r)
  end.

Definition K : list Z :=
  Eval vm_compute in map (fun p => wrap32 (icbrt 40 (p * 2 ^ 96) 0)) primes64.

Definition H0 : list Z :=
  Eval vm_compute in map (fun p => wrap32 (Z.sqrt (p * 2 ^ 64))) (take 8 primes64).

(** Working variables a..h, and the hash value between blocks. *)
Record regs := Regs { ra : Z; rb : Z; rc : Z; rd : Z; re : Z; rf : Z; rg : Z; rh : Z }.

Definition regs_of_list (l : list Z) : regs :=
  Regs (nth 0 l 0) (nth 1 l 0) (nth 2 l 0) (nth 3 l 0)
       (nth 4 l 0) (nth 5 l 0) (nth 6 l 0) (nth 7 l 0).

Definition list_of_regs (r : regs) : list Z :=
  [ra r; rb r; rc r; rd r; re r; rf r; rg r; rh r].

Definition round (r : regs) (kw : Z * Z) : regs :=
  let t1 := add32 (add32 (add32 (add32 (rh r) (bsig1 (re r))) (Ch (re r) (rf r) (rg r)))
                         (fst kw)) (snd kw) in
  let t2 := add32 (bsig0 (ra r)) (Maj (ra r) (rb r) (rc r)) in
  Regs (add32 t1 t2) (ra r) (rb r) (rc r) (add32 (rd r) t1) (re r) (rf r) (rg r).

(** Big-endian packing of bytes into a word, and back. *)
Definition word_of_bytes (b : list Z) : Z :=
  fold_left (fun acc x => acc * 256 + x) b 0.

Definition bytes_of_word (w : Z) : list Z :=
  [Z.land (Z.shiftr w 24) 255; Z.land (Z.shiftr w 16) 255;
   Z.land (Z.shiftr w 8) 255; Z.land w 255].

Fixpoint words (n : nat) (b : list Z) : list Z :=
  match n with
  | O => []
  | S n' => word_of_bytes (take 4 b) :: words n' (drop 4 b)
  end.

(** Message schedule: [w] holds W_0 .. W_(t-1); append [n] more words. *)
Fixpoint schedule (n : nat) (w : list Z) : list Z :=
  match n with
  | O => w
  | S n' =>
      let t := length w in
      let at_ (i : nat) := nth (t - i) w 0 in
      schedule n' (w ++ [add32 (add32 (add32 (ssig1 (at_ 2%nat)) (at_ 7%nat))
                                      (ssig0 (at_ 15%nat))) (at_ 16%nat)])
  end.

Definition compress (h : regs) (block : list Z) : regs :=
  let w := schedule 48 (words 16 block) in
  let r := fold_left round (combine K w) h in
  Regs (add32 (ra h) (ra r)) (add32 (rb h) (rb r)) (add32 (rc h) (rc r))
       (add32 (rd h) (rd r)) (add32 (re h) (re r)) (add32 (rf h) (rf r))
       (add32 (rg h) (rg r)) (add32 (rh h) (rh r)).

(** Padding: a one bit, zeros up to 56 mod 64, the bit length on 8 bytes. *)
Definition pad (msg : list Z) : list Z :=
  let len := Z.of_nat (length msg) in
  let bits := 8 * len in
  msg ++ [128] ++ replicate (Z.to_nat ((55 - len) mod 64)) 0
      ++ bytes_of_word (Z.shiftr bits 32) ++ bytes_of_word bits.

Fixpoint blocks (n : nat) (h : regs) (b : list Z) : regs :=
  match n with
  | O => h
  | S n' => blocks n' (compress h (take 64 b)) (drop 64 b)
  end.

(** [hashlib.sha256(data).digest()]: 32 bytes. *)
Definition digest (msg : list Z) : list Z :=
  let p := pad msg in
  let h := blocks (length p / 64) (regs_of_list H0) p in
  concat (map bytes_of_word (list_of_regs h)).

Definition hex_digit (d : Z) : ascii :=
  match d with
  | 0 => "0" | 1 => "1" | 2 => "2" | 3 => "3" | 4 => "4" | 5 => "5" | 6 => "6"
  | 7 => "7" | 8 => "8" | 9 => "9" | 10 => "a" | 11 => "b" | 12 => "c"
  | 13 => "d" | 14 => "e" | _ => "f"
  end%char.

Definition hex_of_byte (b : Z) : list ascii :=
  [hex_digit (Z.shiftr b 4); hex_digit (Z.land b 15)].

(** [hashlib.sha256(data).hexdigest()]. *)
Definition hexdigest (msg : list Z) : string :=
  string_of_list_ascii (concat (map hex_of_byte (digest msg))).

End SHA256.

(** [str.encode()] on a text that is held as its UTF-8 encoding: its bytes.
    The handlers below work on such texts.  [str_encode], further down, is
    [str.encode()] on a [str] given by its code points, where a lone
    surrogate makes it raise; [generate_id_str] is [generate_id] on those. *)
Definition encode (s : string) : list Z :=
  map (fun a => Z.of_N (N_of_ascii a)) (list_ascii_of_string s).

(** ** The pydantic models *)

Record Item := { Item_id : string; Item_name : string; Item_description : option string }.

Record ItemCreate := { ItemCreate_name : string; ItemCreate_description : option string }.

Record ItemUpdate := { ItemUpdate_name : option string; ItemUpdate_description : option string }.

(** [ItemUpdate.dict()]: every declared field, in declaration order; a field
    the request left out is there with value [None]. *)
Definition ItemUpdate_dict (item : ItemUpdate) : list (string * option string) :=
  [("name"%string, ItemUpdate_name item);
   ("description"%string, ItemUpdate_description item)].

(** ** Exceptions *)

Inductive exn :=
| HTTPException (status_code : Z) (detail : string)
| ValidationError      (* pydantic: a required [str] field was given [None] *)
| IntegrityError       (* the table rejects a row: primary key taken or null *)
| InvalidRequestError  (* the session cannot act on this instance *)
| UnicodeEncodeError.  (* [str.encode()]: surrogates not allowed *)

Inductive result (A : Type) :=
| Returns (a : A)
| Raises (e : exn).
Arguments Returns {A} a.
Arguments Raises {A} e.

(** ** Identifier generator *)

(** How an f-string renders a [str] or [None] replacement field. *)
Definition fstr (v : option string) : string := default "None"%string v.

(** [generate_id]; [now] is what [time.time()] returned, as the f-string
    renders it. *)
Definition raw_data (now name : string) (description : option string) : string :=
  (name ++ "-" ++ fstr description ++ "-" ++ now)%string.

Definition generate_id (now name : string) (description : option string) : string :=
  SHA256.hexdigest (encode (raw_data now name description)).

(** ** The identifier generator on code points *)

(** A Python [str] is the list of its code points, each in 0 .. 0x10FFFF;
    the surrogates are the code points U+D800 .. U+DFFF. *)
Definition surrogate (c : Z) : bool := (0xD800 <=? c) && (c <=? 0xDFFF).

Definition code_point (c : Z) : bool := (0 <=? c) && (c <=? 0x10FFFF).

(** A Unicode scalar value: a code point that is not a surrogate. *)
Definition scalar (c : Z) : bool := code_point c && negb (surrogate c).

(** The UTF-8 bytes of one code point; a surrogate has none. *)
Definition utf8 (c : Z) : option (list Z) :=
  if c <? 0 then None
  else if c <? 0x80 then Some [c]
  else if c <? 0x800 then Some [0xC0 + c / 64; 0x80 + c mod 64]
  else if c <? 0x10000 then
    if surrogate c then None
    else Some [0xE0 + c / 4096; 0x80 + (c / 64) mod 64; 0x80 + c mod 64]
  else if c <? 0x110000 then
    Some [0xF0 + c / 262144; 0x80 + (c / 4096) mod 64;
          0x80 + (c / 64) mod 64; 0x80 + c mod 64]
  else None.

(** [s.encode()], strict: it raises on the first code point without bytes. *)
Fixpoint str_encode (s : list Z) : result (list Z) :=
  match s with
  | [] => Returns []
  | c :: s' =>
      match utf8 c with
      | None => Raises UnicodeEncodeError
      | Some b =>
          match str_encode s' with
          | Returns bs => Returns (b ++ bs)
          | Raises e => Raises e
          end
      end
  end.

(** The f-string of [generate_id]: the dash is U+002D and [None] is rendered
    as the four letters of its name. *)
Definition fstr_str (v : option (list Z)) : list Z := default [78; 111; 110; 101] v.

Definition raw_data_str (now name : list Z) (description : option (list Z)) : list Z :=
  name ++ [45] ++ fstr_str description ++ [45] ++ now.

(** [generate_id] on Python strings; [now] is the text of [time.time()]. *)
Definition generate_id_str (now name : list Z) (description : option (list Z))
  : result string :=
  match str_encode (raw_data_str now name description) with
  | Returns data => Returns (SHA256.hexdigest data)
  | Raises e => Raises e
  end.

(** What UTF-8 bytes are: the strict reading of bytes as code points, which
    refuses overlong forms, surrogates and values above 0x10FFFF. *)
Definition continuation (b : Z) : bool := (0x80 <=? b) && (b <? 0xC0).

Definition prepend (c : Z) (r : option (list Z)) : option (list Z) :=
  match r with Some l => Some (c :: l) | None => None end.

Fixpoint utf8_decode (bs : list Z) : option (list Z) :=
  match bs with
  | [] => Some []
  | b0 :: r0 =>
      if (0 <=? b0) && (b0 <? 0x80) then prepend b0 (utf8_decode r0)
      else
        match r0 with
        | [] => None
        | b1 :: r1 =>
            if (0xC2 <=? b0) && (b0 <? 0xE0) && continuation b1
            then prepend ((b0 - 0xC0) * 64 + (b1 - 0x80)) (utf8_decode r1)
            else
              match r1 with
              | [] => None
              | b2 :: r2 =>
                  let c3 := (b0 - 0xE0) * 4096 + (b1 - 0x80) * 64 + (b2 - 0x80) in
                  if (0xE0 <=? b0) && (b0 <? 0xF0) && continuation b1 && continuation b2
                     && (0x800 <=? c3) && negb (surrogate c3)
                  then prepend c3 (utf8_decode r2)
                  else
                    match r2 with
                    | [] => None
                    | b3 :: r3 =>
                        let c4 := (b0 - 0xF0) * 262144 + (b1 - 0x80) * 4096
                                  + (b2 - 0x80) * 64 + (b3 - 0x80) in
                        if (0xF0 <=? b0) && (b0 <? 0xF5) && continuation b1
                           && continuation b2 && continuation b3
                           && (0x10000 <=? c4) && (c4 <=? 0x10FFFF)
                        then prepend c4 (utf8_decode r3)
                        else None
                    end
              end
        end
  end.

(** ** The mapped class and the table *)

(** A [DBItem] instance: its three attributes, each of which may hold [None]. *)
Record DBItem := {
  DBItem_id : option string;
  DBItem_name : option string;
  DBItem_description : option string
}.

(** [DBItem.__init__]. *)
Definition DBItem_init (now name : string) (description : option string) : DBItem :=
  {| DBItem_name := Some name;
     DBItem_description := description;
     DBItem_id := Some (generate_id now name description) |}.

(** [setattr(db_item, key, value)] for the mapped attributes; any other key
    is a plain attribute that no column reads. *)
Definition setattr (o : DBItem) (key : string) (value : option string) : DBItem :=
  if decide (key = "id"%string) then
    {| DBItem_id := value; DBItem_name := DBItem_name o;
       DBItem_description := DBItem_description o |}
  else if decide (key = "name"%string) then
    {| DBItem_id := DBItem_id o; DBItem_name := value;
       DBItem_description := DBItem_description o |}
  else if decide (key = "description"%string) then
    {| DBItem_id := DBItem_id o; DBItem_name := DBItem_name o;
       DBItem_description := value |}
  else o.

(** The table [items]: [id] is the primary key, [name] and [description] are
    nullable; SQLite does not enforce the declared lengths. *)
Abbreviation columns := (option string * option string)%type.
Abbreviation table := (gmap string columns).

Definition columns_of (o : DBItem) : columns := (DBItem_name o, DBItem_description o).

Definition load (pk : string) (c : columns) : DBItem :=
  {| DBItem_id := Some pk; DBItem_name := fst c; DBItem_description := snd c |}.

Definition load_row (kc : string * columns) : DBItem := load (fst kc) (snd kc).

(** ** The session *)

(** What the unit of work has queued for the next flush. *)
Inductive change :=
| INSERT (o : DBItem)
| UPDATE (pk : string) (o : DBItem)
| DELETE (pk : string).

Record Session := { database : table; pending : list change }.

Definition flush1 (db : table) (c : change) : result table :=
  match c with
  | INSERT o =>
      match DBItem_id o with
      | None => Raises IntegrityError
      | Some k =>
          match db !! k with
          | Some _ => Raises IntegrityError
          | None => Returns (<[k := columns_of o]> db)
          end
      end
  | UPDATE pk o =>
      match DBItem_id o with
      | None => Raises IntegrityError
      | Some k =>
          if decide (k = pk) then Returns (<[pk := columns_of o]> db)
          else match db !! k with
               | Some _ => Raises IntegrityError
               | None => Returns (<[k := columns_of o]> (delete pk db))
               end
      end
  | DELETE pk => Returns (delete pk db)
  end.

Fixpoint flush (db : table) (cs : list change) : result table :=
  match cs with
  | [] => Returns db
  | c :: cs' =>
      match flush1 db c with
      | Returns db' => flush db' cs'
      | Raises e => Raises e
      end
  end.

(** Handler code runs against a session and returns or raises. *)
Definition handler (A : Type) : Type := Session -> result A * Session.

Definition ret {A} (a : A) : handler A := fun s => (Returns a, s).
Definition raise {A} (e : exn) : handler A := fun s => (Raises e, s).
Definition bind {A B} (m : handler A) (k : A -> handler B) : handler B :=
  fun s => match m s with
           | (Returns a, s') => k a s'
           | (Raises e, s') => (Raises e, s')
           end.

Declare Scope handler_scope.
Delimit Scope handler_scope with handler.
Notation "x <- m ;; k" := (bind m (fun x => k))
  (at level 100, m at next level, right associativity) : handler_scope.
Notation "m ;; k" := (bind m (fun _ => k))
  (at level 100, right associativity) : handler_scope.
Local Open Scope handler_scope.

(** [db.query(DBItem).filter(DBItem.id == item_id).first()]. *)
Definition db_query_first (item_id : string) : handler (option DBItem) :=
  fun s => (Returns (load item_id <$> database s !! item_id), s).

(** [db.query(DBItem).all()]: a list, never [None].  The code lists the
    rows in storage order; the table here keeps no such order and lists them
    by key, so what is proved of a listing is its length and its members,
    never the place of an item in it. *)
Definition db_query_all : handler (option (list DBItem)) :=
  fun s => (Returns (Some (load_row <$> map_to_list (database s))), s).

(** [db.add(db_item)]. *)
Definition db_add (o : DBItem) : handler unit :=
  fun s => (Returns tt, {| database := database s; pending := pending s ++ [INSERT o] |}).

(** [db.delete(db_item)]. *)
Definition db_delete (o : DBItem) : handler unit :=
  fun s => match DBItem_id o with
           | Some pk => (Returns tt, {| database := database s;
                                        pending := pending s ++ [DELETE pk] |})
           | None => (Raises InvalidRequestError, s)
           end.

(** [setattr] on an instance the session has loaded: the write is queued
    against the row the instance came from. *)
Definition db_setattr (o : DBItem) (kv : string * option string) : handler DBItem :=
  fun s => let o' := setattr o (fst kv) (snd kv) in
           match DBItem_id o with
           | Some pk => (Returns o', {| database := database s;
                                        pending := pending s ++ [UPDATE pk o'] |})
           | None => (Returns o', s)
           end.

(** [db.commit()]: flush, then commit; a failed flush rolls back.  The
    parameters bound are texts held as UTF-8, which the driver always
    accepts; what it refuses for them is a taken or null primary key. *)
Definition db_commit : handler unit :=
  fun s => match flush (database s) (pending s) with
           | Returns db' => (Returns tt, {| database := db'; pending := [] |})
           | Raises e => (Raises e, {| database := database s; pending := [] |})
           end.

(** [db.refresh(db_item)]: reload the attributes from the instance's row. *)
Definition db_refresh (o : DBItem) : handler DBItem :=
  fun s => match DBItem_id o with
           | Some pk =>
               match database s !! pk with
               | Some c => (Returns (load pk c), s)
               | None => (Raises InvalidRequestError, s)
               end
           | None => (Raises InvalidRequestError, s)
           end.

(** [Item] built from the keywords of [db_item.__dict__]: [id] and [name]
    are required [str] fields, [description] is [Optional[str]]; other keys
    of [__dict__] are ignored. *)
Definition Item_of (o : DBItem) : result Item :=
  match DBItem_id o, DBItem_name o with
  | Some i, Some n =>
      Returns {| Item_id := i; Item_name := n; Item_description := DBItem_description o |}
  | _, _ => Raises ValidationError
  end.

Definition new_Item (o : DBItem) : handler Item :=
  fun s => (Item_of o, s).

(** A [for] loop that threads a value, and a list comprehension. *)
Fixpoint for_each {A B} (f : A -> B -> handler A) (a : A) (l : list B) : handler A :=
  match l with
  | [] => ret a
  | b :: l' => a' <- f a b ;; for_each f a' l'
  end.

Fixpoint comprehension {A B} (f : A -> handler B) (l : list A) : handler (list B) :=
  match l with
  | [] => ret []
  | a :: l' => b <- f a ;; bs <- comprehension f l' ;; ret (b :: bs)
  end.

(** [Depends(get_db)]: a fresh session per request, closed on every exit;
    what was not committed is dropped. *)
Definition get_db {A} (h : handler A) (db : table) : result A * table :=
  let (r, s) := h {| database := db; pending := [] |} in (r, database s).

(** ** The handlers *)

Definition item_not_found : exn := HTTPException 404 "Item not found".
Definition not_found {A} : handler A := raise item_not_found.

(** [item.dict()] passes [name] and [description] to [DBItem] by keyword. *)
Definition create_item (now : string) (item : ItemCreate) : handler Item :=
  let db_item := DBItem_init now (ItemCreate_name item) (ItemCreate_description item) in
  db_add db_item ;;
  db_commit ;;
  db_item <- db_refresh db_item ;;
  new_Item db_item.

Definition read_item (item_id : string) : handler Item :=
  db_item <- db_query_first item_id ;;
  match db_item with
  | None => not_found
  | Some db_item => new_Item db_item
  end.

Definition read_all_items : handler (list Item) :=
  db_items <- db_query_all ;;
  match db_items with
  | None => not_found
  | Some db_items => comprehension new_Item db_items
  end.

Definition update_item (item_id : string) (item : ItemUpdate) : handler Item :=
  db_item <- db_query_first item_id ;;
  match db_item with
  | None => not_found
  | Some db_item =>
      db_item <- for_each db_setattr db_item (ItemUpdate_dict item) ;;
      db_commit ;;
      db_item <- db_refresh db_item ;;
      new_Item db_item
  end.

Definition delete_item (item_id : string) : handler Item :=
  db_item <- db_query_first item_id ;;
  match db_item with
  | None => not_found
  | Some db_item =>
      db_delete db_item ;;
      db_commit ;;
      new_Item db_item
  end.

(** ** Running a list of requests *)

(** Requests served one after the other, each on the table the previous one
    left; [None] as soon as one of them raises. *)
Fixpoint create_all (db : table) (reqs : list (string * ItemCreate))
  : option (list Item * table) :=
  match reqs with
  | [] => Some ([], db)
  | (now, item) :: reqs' =>
      match get_db (create_item now item) db with
      | (Returns it, db') =>
          match create_all db' reqs' with
          | Some (its, db'') => Some (it :: its, db'')
          | None => None
          end
      | (Raises _, _) => None
      end
  end.

Fixpoint delete_all (db : table) (ids : list string) : option (list Item * table) :=
  match ids with
  | [] => Some ([], db)
  | item_id :: ids' =>
      match get_db (delete_item item_id) db with
      | (Returns it, db') =>
          match delete_all db' ids' with
          | Some (its, db'') => Some (it :: its, db'')
          | None => None
          end
      | (Raises _, _) => None
      end
  end.

(** The list comprehension of [read_all_items], run on its own. *)
Fixpoint Items_of (l : list DBItem) : result (list Item) :=
  match l with
  | [] => Returns []
  | o :: l' =>
      match Item_of o with
      | Returns it =>
          match Items_of l' with
          | Returns its => Returns (it :: its)
          | Raises e => Raises e
          end
      | Raises e => Raises e
      end
  end.

(** ** The application *)

(** The five routes of [app], and the table a request leaves behind. *)
Inductive request :=
| POST_items (now : string) (item : ItemCreate)
| GET_item (item_id : string)
| GET_items
| PUT_item (item_id : string) (item : ItemUpdate)
| DELETE_item (item_id : string).

Definition table_after (db : table) (r : request) : table :=
  match r with
  | POST_items now item => snd (get_db (create_item now item) db)
  | GET_item item_id => snd (get_db (read_item item_id) db)
  | GET_items => snd (get_db read_all_items db)
  | PUT_item item_id item => snd (get_db (update_item item_id item) db)
  | DELETE_item item_id => snd (get_db (delete_item item_id) db)
  end.

(** Requests served one after the other. *)
Definition serve_all (db : table) (rs : list request) : table :=
  fold_left table_after rs db.

Definition is_POST (r : request) : bool :=
  match r with POST_items _ _ => true | _ => false end.

(** A request that is not an update without a name. *)
Definition gives_name (r : request) : Prop :=
  match r with
  | PUT_item _ item => is_Some (ItemUpdate_name item)
  | _ => True
  end.

(** ** Vocabulary of the properties *)

Definition is_lower_hex (c : ascii) : bool :=
  let n := N_of_ascii c in
  ((48 <=? n) && (n <=? 57) || (97 <=? n) && (n <=? 102))%N.

(** A 64-character lowercase hexadecimal string. *)
Definition lower_hex64 (s : string) : bool :=
  (String.length s =? 64)%nat && forallb is_lower_hex (list_ascii_of_string s).

(** The row an item is stored as. *)
Definition row_of (it : Item) : string * columns :=
  (Item_id it, (Some (Item_name it), Item_description it)).

(** The record a served creation answers with. *)
Definition created_item (req : string * ItemCreate) : Item :=
  {| Item_id := generate_id (fst req) (ItemCreate_name (snd req))
                            (ItemCreate_description (snd req));
     Item_name := ItemCreate_name (snd req);
     Item_description := ItemCreate_description (snd req) |}.

(** Every stored record has a name. *)
Definition named (db : table) : Prop :=
  map_Forall (fun _ (c : columns) => is_Some (fst c)) db.

(** Creating an item returns a record with a well-formed id, and reading
    that id next returns the name and description that were supplied. *)
Definition create_read_round_trip (db : table) (now : string) (item : ItemCreate) : Prop :=
  exists it db',
    get_db (create_item now item) db = (Returns it, db')
    /\ lower_hex64 (Item_id it) = true
    /\ exists it', get_db (read_item (Item_id it)) db' = (Returns it', db')
         /\ Item_name it' = ItemCreate_name item
         /\ Item_description it' = ItemCreate_description item.

(** ** Sample data *)

Definition t0 : string := "1700000000.5".
Definition foo : ItemCreate :=
  {| ItemCreate_name := "foo"; ItemCreate_description := Some "bar"%string |}.
Definition foo_id : string :=
  "bd76ec70372dae973ac0da1d385eb86c57ffd85170438c5cbfe0e0191275e623".
Definition blank : ItemUpdate :=
  {| ItemUpdate_name := None; ItemUpdate_description := None |}.
Definition baz : ItemUpdate :=
  {| ItemUpdate_name := Some "baz"%string; ItemUpdate_description := None |}.

Definition foo_item : Item :=
  {| Item_id := foo_id; Item_name := "foo"; Item_description := Some "bar"%string |}.

(** The table after [foo] was created at [t0], and after an update of it
    whose body has neither field. *)
Definition db_foo : table := {[ foo_id := (Some "foo"%string, Some "bar"%string) ]}.
Definition db_blank : table := {[ foo_id := (None, None) ]}.

(** The same request again, at a later clock reading. *)
Definition t1 : string := "1700000001.25".
Definition foo_id1 : string :=
  "c5169564bd3f2a534fc3c1f9e56f05c439061043d5a1eb5f60516014272db7d4".
Definition foo_item1 : Item :=
  {| Item_id := foo_id1; Item_name := "foo"; Item_description := Some "bar"%string |}.
Definition db_foo2 : table :=
  <[ foo_id1 := (Some "foo"%string, Some "bar"%string) ]> db_foo.

(** The clock reading [t0] and the words foo and bar as code points. *)
Definition t0_str : list Z := [49; 55; 48; 48; 48; 48; 48; 48; 48; 48; 46; 53].
Definition foo_str : list Z := [102; 111; 111].
Definition bar_str : list Z := [98; 97; 114].

(** What [generate_id] returns in Python on two inputs, the second one with
    code points of two, three and four bytes (U+00E9; U+65E5 U+672C U+1F600). *)
Definition generate_id_known_answers : Prop :=
  generate_id_str t0_str foo_str (Some bar_str)
  = Returns "bd76ec70372dae973ac0da1d385eb86c57ffd85170438c5cbfe0e0191275e623"%string
  /\ generate_id_str t0_str [233] (Some [26085; 26412; 128512])
     = Returns "6600ba092938053d7566c17931a82b7db5d613fa492294079ec634efe1b28aeb"%string.

Arguments generate_id : simpl never.

(** * Properties *)

(** ** The digest *)

Example sha256_empty :
  SHA256.hexdigest (encode "")
  = "e3b0c44298fc1c149afbf4c8996fb92427ae41e4649b934ca495991b7852b855"%string.
Proof. vm_compute. reflexivity. Qed.

Example sha256_abc :
  SHA256.hexdigest (encode "abc")
  = "ba7816bf8f01cfea414140de5dae2223b00361a396177a9cb410ff61f20015ad"%string.
Proof. vm_compute. reflexivity. Qed.

Example sha256_two_blocks :
  SHA256.hexdigest (encode "abcdbcdecdefdefgefghfghighijhijkijkljklmklmnlmnomnopnopq")
  = "248d6a61d20638b8e5c026930c3e6039a33ce45964ff2167f6ecedd419db06c1"%string.
Proof. vm_compute. reflexivity. Qed.

Example K_ends : nth 0 SHA256.K 0 = 0x428a2f98 /\ nth 63 SHA256.K 0 = 0xc67178f2.
Proof. split; reflexivity. Qed.

Example generate_id_foo : generate_id t0 "foo" (Some "bar"%string) = foo_id.
Proof. vm_compute. reflexivity. Qed.

Lemma digest_length msg : length (SHA256.digest msg) = 32%nat.
Proof. reflexivity. Qed.

Lemma hex_digit_lower d : is_lower_hex (SHA256.hex_digit d) = true.
Proof.
  destruct d as [|p|p]; try reflexivity.
  do 4 (try (destruct p as [p|p|]; try reflexivity)).
Qed.

Lemma hex_of_bytes_lower (l : list Z) :
  forallb is_lower_hex (concat (map SHA256.hex_of_byte l)) = true.
Proof.
  induction l as [|b l IH]; [reflexivity|].
  cbn [map concat SHA256.hex_of_byte app forallb].
  rewrite !hex_digit_lower. exact IH.
Qed.

Lemma hex_of_bytes_length (l : list Z) :
  length (concat (map SHA256.hex_of_byte l)) = (2 * length l)%nat.
Proof.
  induction l as [|b l IH]; [reflexivity|].
  cbn [map concat SHA256.hex_of_byte app length]. rewrite IH. lia.
Qed.

Lemma string_of_list_ascii_length (l : list ascii) :
  String.length (string_of_list_ascii l) = length l.
Proof. induction l as [|a l IH]; [reflexivity|]. cbn. by rewrite IH. Qed.

Lemma hexdigest_lower_hex64 msg : lower_hex64 (SHA256.hexdigest msg) = true.
Proof.
  unfold lower_hex64, SHA256.hexdigest.
  rewrite string_of_list_ascii_length, list_ascii_of_string_of_list_ascii.
  rewrite hex_of_bytes_length, digest_length, hex_of_bytes_lower.
  reflexivity.
Qed.

(** ** What each request does to the table *)


Lemma create_item_run db now item :
  get_db (create_item now item) db =
  let k := generate_id now (ItemCreate_name item) (ItemCreate_description item) in
  match db !! k with
  | Some _ => (Raises IntegrityError, db)
  | None =>
      (Returns {| Item_id := k; Item_name := ItemCreate_name item;
                  Item_description := ItemCreate_description item |},
       <[k := (Some (ItemCreate_name item), ItemCreate_description item)]> db)
  end.
Proof.
  unfold get_db, create_item, bind, db_add, db_commit, db_refresh, new_Item.
  cbn. destruct (db !! _) eqn:Hk; cbn; [reflexivity|].
  by rewrite lookup_insert_eq.
Qed.

Lemma read_item_run db item_id :
  get_db (read_item item_id) db =
  match db !! item_id with
  | Some c => (Item_of (load item_id c), db)
  | None => (Raises item_not_found, db)
  end.
Proof.
  unfold get_db, read_item, bind, db_query_first, new_Item, not_found, raise.
  cbn. by destruct (db !! item_id).
Qed.

Lemma setattr_name o v :
  setattr o "name" v
  = {| DBItem_id := DBItem_id o; DBItem_name := v;
       DBItem_description := DBItem_description o |}.
Proof. reflexivity. Qed.

Lemma setattr_description o v :
  setattr o "description" v
  = {| DBItem_id := DBItem_id o; DBItem_name := DBItem_name o;
       DBItem_description := v |}.
Proof. reflexivity. Qed.

Lemma update_item_run db item_id item :
  get_db (update_item item_id item) db =
  match db !! item_id with
  | Some _ =>
      (Item_of {| DBItem_id := Some item_id; DBItem_name := ItemUpdate_name item;
                  DBItem_description := ItemUpdate_description item |},
       <[item_id := (ItemUpdate_name item, ItemUpdate_description item)]> db)
  | None => (Raises item_not_found, db)
  end.
Proof.
  unfold get_db, update_item, bind, db_query_first, not_found, raise.
  cbn. destruct (db !! item_id) as [c|] eqn:Hk; cbn; [|reflexivity].
  unfold db_setattr, db_commit, db_refresh, new_Item, bind, ret. cbn.
  rewrite !setattr_name, !setattr_description. cbn.
  rewrite !decide_True by reflexivity.
  rewrite insert_insert_eq. cbn [database].
  rewrite lookup_insert_eq. reflexivity.
Qed.

Lemma delete_item_run db item_id :
  get_db (delete_item item_id) db =
  match db !! item_id with
  | Some c => (Item_of (load item_id c), delete item_id db)
  | None => (Raises item_not_found, db)
  end.
Proof.
  unfold get_db, delete_item, bind, db_query_first, not_found, raise.
  cbn. by destruct (db !! item_id).
Qed.

Lemma comprehension_run (l : list DBItem) (s : Session) :
  comprehension new_Item l s = (Items_of l, s).
Proof.
  revert s. induction l as [|o l IH]; intros s; [reflexivity|].
  cbn [comprehension Items_of]. unfold bind, ret.
  unfold new_Item at 1.
  destruct (Item_of o); [|reflexivity].
  rewrite IH. by destruct (Items_of l).
Qed.

Lemma read_all_items_run db :
  get_db read_all_items db =
  (Items_of (load_row <$> map_to_list db), db).
Proof.
  unfold get_db, read_all_items, bind, db_query_all.
  cbn. by rewrite comprehension_run.
Qed.

(** ** Identifier generator *)

(** The text that is hashed determines the clock reading: two readings that
    differ give two different texts, whatever the name and description. *)
Lemma raw_data_inj_now now1 now2 name description :
  raw_data now1 name description = raw_data now2 name description -> now1 = now2.
Proof.
  unfold raw_data. intros H.
  do 4 apply (inj (String.app _)) in H. exact H.
Qed.

(** ** Create, then read *)

Lemma generate_id_of_foo :
  generate_id t0 (ItemCreate_name foo) (ItemCreate_description foo) = foo_id.
Proof. exact generate_id_foo. Qed.

Lemma generate_id_of_foo1 :
  generate_id t1 (ItemCreate_name foo) (ItemCreate_description foo) = foo_id1.
Proof. vm_compute. reflexivity. Qed.

Example db_foo_created :
  get_db (create_item t0 foo) ∅
  = (Returns foo_item, db_foo).
Proof.
  rewrite create_item_run. cbv zeta.
  rewrite generate_id_of_foo, lookup_empty. reflexivity.
Qed.

(** C1, as it is worded, fails where the table already holds the generated
    id: the same request served twice at one clock reading is rejected the
    second time. *)
Lemma create_read_round_trip_rejected : ~ create_read_round_trip db_foo t0 foo.
Proof.
  intros (it & db' & Hc & _).
  rewrite create_item_run in Hc. cbv zeta in Hc.
  rewrite generate_id_of_foo in Hc. unfold db_foo in Hc.
  rewrite lookup_singleton_eq in Hc. discriminate Hc.
Qed.

(** C1, amended.  For every name, description, clock reading and table in
    which the generated id is not yet a key, creating an item returns a
    record whose id is 64 lowercase hexadecimal characters, and reading that
    id next returns a record with the name and description supplied. *)
Theorem create_then_read (db : table) (now : string) (item : ItemCreate) :
  db !! generate_id now (ItemCreate_name item) (ItemCreate_description item) = None ->
  create_read_round_trip db now item.
Proof.
  intros Hfresh. unfold create_read_round_trip.
  rewrite create_item_run. cbn zeta. rewrite Hfresh.
  eexists _, _. split; [reflexivity|]. cbn [Item_id].
  split; [apply hexdigest_lower_hex64|].
  rewrite read_item_run, lookup_insert_eq. cbn.
  eexists. split; [reflexivity|]. split; reflexivity.
Qed.

Lemma create_then_read_witness :
  (∅ : table) !! generate_id t0 (ItemCreate_name foo) (ItemCreate_description foo) = None
  /\ create_read_round_trip ∅ t0 foo.
Proof.
  split; [apply lookup_empty|].
  apply (create_then_read ∅ t0 foo). apply lookup_empty.
Defined.

(** ** Reading one item *)

(** X9.  Read-one raises the 404 exactly when the id is not a key of the
    table. *)
Lemma read_item_not_found_iff db item_id :
  fst (get_db (read_item item_id) db) = Raises item_not_found <-> db !! item_id = None.
Proof.
  rewrite read_item_run. destruct (db !! item_id) as [[[n|] d]|]; cbn.
  - split; discriminate.
  - split; discriminate.
  - done.
Qed.

(** A record that has a name is returned as it is stored. *)
Lemma read_item_named db item_id n d :
  db !! item_id = Some (Some n, d) ->
  get_db (read_item item_id) db
  = (Returns {| Item_id := item_id; Item_name := n; Item_description := d |}, db).
Proof. intros H. rewrite read_item_run, H. reflexivity. Qed.

(** C3, at a request body that has neither field.  The row is overwritten
    with nulls and committed; building the response then raises, because
    [Item.name] is a required [str]. *)
Theorem update_item_blank_body :
  get_db (update_item foo_id blank) db_foo = (Raises ValidationError, db_blank).
Proof.
  rewrite update_item_run. unfold db_foo, db_blank.
  rewrite lookup_singleton_eq. reflexivity.
Qed.

(** C2, on the table that request leaves.  The record is there, and reading
    it raises instead of returning it. *)
Theorem read_item_nameless_record :
  db_blank !! foo_id = Some (None, None)
  /\ get_db (read_item foo_id) db_blank = (Raises ValidationError, db_blank).
Proof.
  assert (H : db_blank !! foo_id = Some (None, None)) by apply lookup_singleton_eq.
  split; [exact H|]. rewrite read_item_run, H. reflexivity.
Qed.

(** ** Updating *)

(** The loop of [update_item] writes the declared fields of [ItemUpdate]
    and no other attribute. *)
Lemma ItemUpdate_dict_keys item : (ItemUpdate_dict item).*1 = ["name"; "description"]%string.
Proof. reflexivity. Qed.

Lemma setattr_keeps_id o key value :
  key <> "id"%string -> DBItem_id (setattr o key value) = DBItem_id o.
Proof.
  intros Hkey. unfold setattr.
  rewrite decide_False by exact Hkey.
  repeat case_decide; reflexivity.
Qed.

(** An update that names the record is answered with the updated record. *)
Lemma update_item_named db item_id n d c :
  db !! item_id = Some c ->
  get_db (update_item item_id {| ItemUpdate_name := Some n; ItemUpdate_description := d |}) db
  = (Returns {| Item_id := item_id; Item_name := n; Item_description := d |},
     <[item_id := (Some n, d)]> db).
Proof. intros H. rewrite update_item_run, H. reflexivity. Qed.

(** An update without a name is committed, and then raises. *)
Lemma update_item_nameless db item_id d c :
  db !! item_id = Some c ->
  get_db (update_item item_id {| ItemUpdate_name := None; ItemUpdate_description := d |}) db
  = (Raises ValidationError, <[item_id := (None, d)]> db).
Proof. intros H. rewrite update_item_run, H. reflexivity. Qed.

(** C4.  For every existing record and every update request, the table
    after the update has the same ids as before, the record is still stored
    under its id, every other record is as it was, and a returned record
    carries the id the request named. *)
Theorem update_item_keeps_id (db : table) (item_id : string) (item : ItemUpdate) (c : columns) :
  db !! item_id = Some c ->
  exists r db',
    get_db (update_item item_id item) db = (r, db')
    /\ dom db' = dom db
    /\ db' !! item_id = Some (ItemUpdate_name item, ItemUpdate_description item)
    /\ (forall k, k <> item_id -> db' !! k = db !! k)
    /\ (forall it, r = Returns it -> Item_id it = item_id).
Proof.
  intros Hc. rewrite update_item_run, Hc.
  eexists _, _. split; [reflexivity|]. repeat split.
  - apply dom_insert_lookup_L. by exists c.
  - apply lookup_insert_eq.
  - intros k Hk. by apply lookup_insert_ne.
  - intros it. unfold Item_of. cbn.
    destruct (ItemUpdate_name item); [|discriminate].
    intros Hr. injection Hr as <-. reflexivity.
Qed.

Lemma update_item_keeps_id_witness :
  db_foo !! foo_id = Some (Some "foo"%string, Some "bar"%string)
  /\ exists r db',
       get_db (update_item foo_id baz) db_foo = (r, db')
       /\ dom db' = dom db_foo
       /\ db' !! foo_id = Some (ItemUpdate_name baz, ItemUpdate_description baz)
       /\ (forall k, k <> foo_id -> db' !! k = db_foo !! k)
       /\ (forall it, r = Returns it -> Item_id it = foo_id).
Proof.
  split; [apply lookup_singleton_eq|].
  apply (update_item_keeps_id db_foo foo_id baz (Some "foo"%string, Some "bar"%string)).
  apply lookup_singleton_eq.
Defined.

(** ** Deleting *)

(** A record that has a name is removed and echoed as it was stored. *)
Lemma delete_item_named db item_id n d :
  db !! item_id = Some (Some n, d) ->
  get_db (delete_item item_id) db
  = (Returns {| Item_id := item_id; Item_name := n; Item_description := d |},
     delete item_id db).
Proof. intros H. rewrite delete_item_run, H. reflexivity. Qed.

(** X27.  Whatever the first delete answered, a second delete of the same id
    raises the 404 and leaves the table as it is. *)
Lemma delete_item_twice db item_id :
  let db' := snd (get_db (delete_item item_id) db) in
  get_db (delete_item item_id) db' = (Raises item_not_found, db').
Proof.
  cbv zeta. rewrite (delete_item_run db).
  destruct (db !! item_id) eqn:Hk; cbn [snd].
  - by rewrite delete_item_run, lookup_delete_eq.
  - by rewrite delete_item_run, Hk.
Qed.

(** C5, on the table the blank update leaves.  The record is removed, and
    the handler raises instead of echoing it. *)
Theorem delete_item_nameless_record :
  get_db (delete_item foo_id) db_blank = (Raises ValidationError, ∅).
Proof.
  rewrite delete_item_run. unfold db_blank.
  rewrite lookup_singleton_eq, delete_singleton_eq. reflexivity.
Qed.

(** ** Not-found leaves the table alone *)

(** C10.  For every table and every id that is not a key of it, read-one,
    update and delete each raise the 404 "Item not found" and leave the
    table as it was. *)
Theorem not_found_leaves_table (db : table) (item_id : string) :
  db !! item_id = None ->
  get_db (read_item item_id) db = (Raises (HTTPException 404 "Item not found"), db)
  /\ (forall item, get_db (update_item item_id item) db
                   = (Raises (HTTPException 404 "Item not found"), db))
  /\ get_db (delete_item item_id) db = (Raises (HTTPException 404 "Item not found"), db).
Proof.
  intros Hk. repeat split.
  - by rewrite read_item_run, Hk.
  - intros item. by rewrite update_item_run, Hk.
  - by rewrite delete_item_run, Hk.
Qed.

Lemma not_found_leaves_table_witness :
  db_foo !! "0"%string = None
  /\ get_db (read_item "0") db_foo = (Raises (HTTPException 404 "Item not found"), db_foo)
  /\ (forall item, get_db (update_item "0" item) db_foo
                   = (Raises (HTTPException 404 "Item not found"), db_foo))
  /\ get_db (delete_item "0") db_foo = (Raises (HTTPException 404 "Item not found"), db_foo).
Proof.
  assert (H : db_foo !! "0"%string = None) by (apply lookup_singleton_ne; discriminate).
  split; [exact H|]. exact (not_found_leaves_table db_foo "0" H).
Defined.

(** ** Reading all items *)

Lemma read_all_items_empty : get_db read_all_items ∅ = (Returns [], ∅).
Proof. rewrite read_all_items_run, map_to_list_empty. reflexivity. Qed.

Lemma Items_of_raises (l : list DBItem) (e : exn) :
  Items_of l = Raises e -> e = ValidationError.
Proof.
  induction l as [|o l IH]; cbn; [discriminate|].
  unfold Item_of.
  destruct (DBItem_id o), (DBItem_name o); try (intros [= <-]; reflexivity).
  destruct (Items_of l); [discriminate|].
  intros [= <-]. by apply IH.
Qed.

(** The 404 of [read_all_items] is never raised. *)
Lemma read_all_items_never_not_found db :
  fst (get_db read_all_items db) <> Raises item_not_found.
Proof.
  rewrite read_all_items_run. cbn [fst]. intros H.
  apply Items_of_raises in H. discriminate H.
Qed.

Lemma Items_of_named (l : list (string * columns)) :
  Forall (fun kc => is_Some (fst (snd kc))) l ->
  exists listing, Items_of (load_row <$> l) = Returns listing /\ row_of <$> listing = l.
Proof.
  induction 1 as [|[k [n d]] l [n' Hn] _ (listing & Hl & Hrows)]; cbn in *.
  - by exists [].
  - subst n. rewrite Hl.
    eexists (_ :: listing). split; [reflexivity|]. cbn. by rewrite Hrows.
Qed.

(** On a table whose records all have a name, read-all returns them all. *)
Lemma read_all_items_named db :
  named db ->
  exists listing, get_db read_all_items db = (Returns listing, db)
                  /\ row_of <$> listing = map_to_list db.
Proof.
  intros Hdb. rewrite read_all_items_run.
  destruct (Items_of_named (map_to_list db)) as (listing & Hl & Hrows).
  - apply map_Forall_to_list in Hdb.
    eapply Forall_impl; [exact Hdb|]. by intros [k c].
  - exists listing. by rewrite Hl.
Qed.

(** C7, on the table the blank update leaves.  Read-all raises: its list
    comprehension builds an [Item] from the record without a name. *)
Theorem read_all_items_nameless_record :
  get_db read_all_items db_blank = (Raises ValidationError, db_blank).
Proof.
  rewrite read_all_items_run. unfold db_blank.
  rewrite map_to_list_singleton. reflexivity.
Qed.

(** ** Listing after creations and deletions *)

Lemma row_of_inj : Inj (=) (=) row_of.
Proof.
  intros [i n d] [i' n' d']. unfold row_of. cbn. congruence.
Qed.

(** Served creations add one row each, under ids that were free. *)
Lemma create_all_rows reqs : forall db created db1,
  create_all db reqs = Some (created, db1) ->
  length created = length reqs
  /\ map_to_list db1 ≡ₚ (row_of <$> created) ++ map_to_list db.
Proof.
  induction reqs as [|[now item] reqs IH]; intros db created db1 H; cbn in H.
  - injection H as <- <-. by split.
  - rewrite create_item_run in H. cbv zeta in H.
    destruct (db !! _) eqn:Hfresh; [discriminate|].
    destruct (create_all _ reqs) as [[its db'']|] eqn:Hrest; [|discriminate].
    injection H as <- <-.
    apply IH in Hrest as [Hlen Hrows]. split; [cbn; by rewrite Hlen|].
    rewrite Hrows, map_to_list_insert by exact Hfresh.
    cbn. by rewrite Permutation_middle.
Qed.

(** Deleting distinct ids of named records succeeds each time, and removes
    exactly those ids. *)
Lemma delete_all_named dels : forall db : table,
  NoDup dels ->
  (forall k, k ∈ dels -> exists n d, db !! k = Some (Some n, d)) ->
  exists echoed db2,
    delete_all db dels = Some (echoed, db2)
    /\ (forall k, db2 !! k = if decide (k ∈ dels) then None else db !! k)
    /\ (size db2 + length dels = size db)%nat.
Proof.
  induction dels as [|k ks IH]; intros db Hnd Hin.
  - exists [], db. split; [reflexivity|]. split; [|cbn; lia].
    intros k. case_decide as Hk; [by apply elem_of_nil in Hk|done].
  - apply NoDup_cons in Hnd as [Hk Hnd].
    destruct (Hin k) as (n & d & Hrow); [by left|].
    destruct (IH (delete k db) Hnd) as (echoed & db2 & Hrun & Hlook & Hsize).
    { intros k' Hk'. rewrite lookup_delete_ne by (by intros ->).
      apply Hin. by right. }
    cbn [delete_all]. rewrite (delete_item_named _ _ _ _ Hrow), Hrun.
    eexists _, _. split; [reflexivity|]. split.
    + intros j. rewrite Hlook.
      destruct (decide (j = k)) as [->|Hjk].
      * rewrite decide_False by exact Hk. rewrite lookup_delete_eq.
        rewrite decide_True by (by left). reflexivity.
      * rewrite lookup_delete_ne by done.
        destruct (decide (j ∈ ks)) as [Hj|Hj].
        -- rewrite decide_True by (by right). reflexivity.
        -- rewrite decide_False; [reflexivity|].
           intros [?|?]%elem_of_cons; done.
    + rewrite map_size_delete_Some in Hsize by (by eexists).
      assert (size db <> 0%nat).
      { apply map_size_ne_0_lookup. by eexists _, _. }
      cbn [length]. lia.
Qed.

(** C6.  Starting from the empty table, for every sequence of N served
    creations followed by the deletion of M distinct ids among those
    created, every deletion is served, and read-all then returns N - M
    items: the items created whose id was not deleted. *)
Theorem list_after_creates_and_deletes
    (reqs : list (string * ItemCreate)) (created : list Item) (db1 : table)
    (dels : list string) :
  create_all ∅ reqs = Some (created, db1) ->
  NoDup dels ->
  dels ⊆ Item_id <$> created ->
  exists echoed db2 listing,
    delete_all db1 dels = Some (echoed, db2)
    /\ get_db read_all_items db2 = (Returns listing, db2)
    /\ length listing = (length reqs - length dels)%nat
    /\ listing ≡ₚ filter (fun it => Item_id it ∉ dels) created.
Proof.
  intros Hcreate Hnd Hsub.
  apply create_all_rows in Hcreate as [Hlen Hrows].
  rewrite map_to_list_empty, app_nil_r in Hrows.
  assert (Hstored : forall it, db1 !! Item_id it = Some (snd (row_of it)) <-> it ∈ created).
  { intros it. rewrite <- elem_of_map_to_list, Hrows.
    apply (@list_elem_of_fmap_inj _ _ row_of row_of_inj). }
  destruct (delete_all_named dels db1 Hnd) as (echoed & db2 & Hrun & Hlook & Hsize).
  { intros k Hk. apply Hsub, list_elem_of_fmap in Hk as (it & -> & Hit).
    apply Hstored in Hit. exists (Item_name it), (Item_description it). exact Hit. }
  assert (Hnamed : named db2).
  { intros k c Hc. rewrite Hlook in Hc. case_decide; [discriminate|].
    apply elem_of_map_to_list in Hc. rewrite Hrows in Hc.
    apply list_elem_of_fmap in Hc as (it & [= -> ->] & _). by eexists. }
  destruct (read_all_items_named db2 Hnamed) as (listing & Hread & Hlist).
  exists echoed, db2, listing. repeat split; [exact Hrun|exact Hread| |].
  - apply (f_equal length) in Hlist.
    rewrite length_fmap, length_map_to_list in Hlist.
    apply Permutation_length in Hrows.
    rewrite length_fmap, length_map_to_list in Hrows. lia.
  - apply NoDup_Permutation.
    + apply (NoDup_fmap_1 row_of). rewrite Hlist. apply NoDup_map_to_list.
    + apply NoDup_filter, (NoDup_fmap_1 row_of).
      rewrite <- Hrows. apply NoDup_map_to_list.
    + intros it. rewrite list_elem_of_filter, <- Hstored.
      rewrite <- (@list_elem_of_fmap_inj _ _ row_of row_of_inj), Hlist.
      destruct it as [i n d]. unfold row_of. cbn.
      rewrite elem_of_map_to_list, Hlook.
      case_decide as Hi.
      * split; [discriminate|]. intros [Hni _]. by destruct Hni.
      * split; [by split|]. by intros [_ ?].
Qed.

Lemma list_after_creates_and_deletes_witness :
  create_all ∅ [(t0, foo); (t1, foo)] = Some ([foo_item; foo_item1], db_foo2)
  /\ NoDup [foo_id]
  /\ [foo_id] ⊆ Item_id <$> [foo_item; foo_item1]
  /\ exists echoed db2 listing,
       delete_all db_foo2 [foo_id] = Some (echoed, db2)
       /\ get_db read_all_items db2 = (Returns listing, db2)
       /\ length listing = (length [(t0, foo); (t1, foo)] - length [foo_id])%nat
       /\ listing ≡ₚ filter (fun it => Item_id it ∉ [foo_id]) [foo_item; foo_item1].
Proof.
  assert (H1 : create_all ∅ [(t0, foo); (t1, foo)] = Some ([foo_item; foo_item1], db_foo2)).
  { cbn [create_all]. rewrite db_foo_created.
    rewrite create_item_run. cbv zeta. rewrite generate_id_of_foo1.
    unfold db_foo at 1. rewrite lookup_singleton_ne by discriminate.
    reflexivity. }
  assert (H2 : NoDup [foo_id]) by apply NoDup_singleton.
  assert (H3 : [foo_id] ⊆ Item_id <$> [foo_item; foo_item1]).
  { intros k Hk. apply list_elem_of_singleton in Hk as ->. by left. }
  split; [exact H1|]. split; [exact H2|]. split; [exact H3|].
  exact (list_after_creates_and_deletes _ _ _ _ H1 H2 H3).
Defined.

(** The two requests above differ in the clock reading only, and get two
    different ids; after the first item is deleted the second is listed. *)
Example same_request_later :
  generate_id t0 "foo" (Some "bar"%string) <> generate_id t1 "foo" (Some "bar"%string).
Proof.
  change (generate_id t1 "foo" (Some "bar"%string))
    with (generate_id t1 (ItemCreate_name foo) (ItemCreate_description foo)).
  rewrite generate_id_foo, generate_id_of_foo1. discriminate.
Qed.

Example listing_after_one_delete :
  get_db read_all_items (delete foo_id db_foo2) = (Returns [foo_item1], delete foo_id db_foo2).
Proof.
  unfold db_foo2, db_foo.
  rewrite delete_insert_ne by discriminate. rewrite delete_singleton_eq.
  rewrite read_all_items_run, insert_empty, map_to_list_singleton. reflexivity.
Qed.

(** * Further properties of the handlers *)

(** ** What the handlers do to the table, one fact each *)

Lemma read_item_table db item_id : snd (get_db (read_item item_id) db) = db.
Proof. rewrite read_item_run. by destruct (db !! item_id). Qed.

Lemma read_all_items_table db : snd (get_db read_all_items db) = db.
Proof. by rewrite read_all_items_run. Qed.

Lemma update_item_table_size db item_id item :
  size (snd (get_db (update_item item_id item) db)) = size db.
Proof.
  rewrite update_item_run.
  destruct (db !! item_id) as [c|] eqn:Hc; cbn [snd]; [|reflexivity].
  apply map_size_insert_Some. by exists c.
Qed.

Lemma named_create db now item :
  named db -> named (snd (get_db (create_item now item) db)).
Proof.
  intros Hdb. rewrite create_item_run. cbv zeta.
  destruct (db !! _) eqn:Hk; cbn [snd]; [exact Hdb|].
  apply map_Forall_insert_2; [by eexists|exact Hdb].
Qed.

Lemma named_delete db item_id :
  named db -> named (snd (get_db (delete_item item_id) db)).
Proof.
  intros Hdb. rewrite delete_item_run.
  destruct (db !! item_id); cbn [snd]; [|exact Hdb].
  by apply map_Forall_delete.
Qed.

Lemma named_update db item_id n d :
  named db ->
  named (snd (get_db (update_item item_id
                {| ItemUpdate_name := Some n; ItemUpdate_description := d |}) db)).
Proof.
  intros Hdb. rewrite update_item_run.
  destruct (db !! item_id); cbn [snd]; [|exact Hdb].
  apply map_Forall_insert_2; [by eexists|exact Hdb].
Qed.

(** ** Creating *)

(** X1.  [create_item] raises [IntegrityError] exactly when the id it
    generates is already the key of a stored record. *)
Theorem create_item_rejected_iff (db : table) (now : string) (item : ItemCreate) :
  fst (get_db (create_item now item) db) = Raises IntegrityError
  <-> is_Some (db !! generate_id now (ItemCreate_name item) (ItemCreate_description item)).
Proof.
  rewrite create_item_run. cbv zeta.
  destruct (db !! _) as [c|] eqn:Hk; cbn [fst].
  - split; [by exists c|reflexivity].
  - split; [discriminate|by intros [c Hc]].
Qed.

(** X3.  A served creation adds exactly one record: the table grows by one,
    the new record is stored under the generated id with the name and
    description of the request, and every other record is as it was. *)
Theorem create_item_adds_one (db : table) (now : string) (item : ItemCreate) :
  db !! generate_id now (ItemCreate_name item) (ItemCreate_description item) = None ->
  let k := generate_id now (ItemCreate_name item) (ItemCreate_description item) in
  let db' := snd (get_db (create_item now item) db) in
  size db' = S (size db)
  /\ db' !! k = Some (Some (ItemCreate_name item), ItemCreate_description item)
  /\ (forall j, j <> k -> db' !! j = db !! j).
Proof.
  intros Hfresh k db'. subst k db'.
  rewrite create_item_run. cbv zeta. rewrite Hfresh. cbn [snd].
  split; [by apply map_size_insert_None|].
  split; [apply lookup_insert_eq|].
  intros j Hj. by apply lookup_insert_ne.
Qed.

Lemma create_item_adds_one_witness :
  (∅ : table) !! generate_id t0 (ItemCreate_name foo) (ItemCreate_description foo) = None
  /\ size (snd (get_db (create_item t0 foo) ∅)) = S (size (∅ : table)).
Proof.
  split; [apply lookup_empty|].
  apply (create_item_adds_one ∅ t0 foo). apply lookup_empty.
Defined.

(** X5.  Create, then delete: deleting the id a served creation returned
    answers with the record that was created and restores the table that
    was there before the creation. *)
Theorem create_then_delete (db : table) (now : string) (item : ItemCreate) :
  db !! generate_id now (ItemCreate_name item) (ItemCreate_description item) = None ->
  get_db (delete_item (Item_id (created_item (now, item))))
         (snd (get_db (create_item now item) db))
  = (Returns (created_item (now, item)), db).
Proof.
  intros Hfresh. rewrite create_item_run. cbv zeta. rewrite Hfresh. cbn [snd].
  unfold created_item. cbn [fst snd Item_id].
  rewrite delete_item_run, lookup_insert_eq.
  rewrite delete_insert_eq, delete_id by exact Hfresh. reflexivity.
Qed.

Lemma create_then_delete_witness :
  (∅ : table) !! generate_id t0 (ItemCreate_name foo) (ItemCreate_description foo) = None
  /\ get_db (delete_item (Item_id (created_item (t0, foo))))
            (snd (get_db (create_item t0 foo) ∅))
     = (Returns (created_item (t0, foo)), ∅).
Proof.
  split; [apply lookup_empty|].
  apply (create_then_delete ∅ t0 foo). apply lookup_empty.
Defined.

(** X6.  When every creation of a sequence is served, the records answered
    are the requests in order, each with its generated id, and every id is
    64 lowercase hexadecimal characters. *)
Theorem create_all_answers (db : table) (reqs : list (string * ItemCreate))
    (created : list Item) (db1 : table) :
  create_all db reqs = Some (created, db1) ->
  created = created_item <$> reqs
  /\ Forall (fun it => lower_hex64 (Item_id it) = true) created.
Proof.
  revert db created db1.
  induction reqs as [|[now item] reqs IH]; intros db created db1 H; cbn in H.
  - injection H as <- <-. by split.
  - rewrite create_item_run in H. cbv zeta in H.
    destruct (db !! _); [discriminate|].
    destruct (create_all _ reqs) as [[its db'']|] eqn:Hrest; [|discriminate].
    injection H as <- <-.
    apply IH in Hrest as [-> Hhex]. split; [reflexivity|].
    constructor; [apply hexdigest_lower_hex64|exact Hhex].
Qed.

Lemma create_all_answers_witness :
  create_all ∅ [(t0, foo)] = Some ([foo_item], db_foo)
  /\ [foo_item] = created_item <$> [(t0, foo)]
  /\ Forall (fun it => lower_hex64 (Item_id it) = true) [foo_item].
Proof.
  assert (H : create_all ∅ [(t0, foo)] = Some ([foo_item], db_foo)).
  { cbn [create_all]. rewrite db_foo_created. reflexivity. }
  split; [exact H|]. exact (create_all_answers ∅ [(t0, foo)] [foo_item] db_foo H).
Defined.

(** X7.  The ids answered by a sequence of served creations are pairwise
    distinct, and none of them was a key of the table before. *)
Theorem create_all_ids_distinct (db : table) (reqs : list (string * ItemCreate))
    (created : list Item) (db1 : table) :
  create_all db reqs = Some (created, db1) ->
  NoDup (Item_id <$> created)
  /\ (forall it, it ∈ created -> db !! Item_id it = None).
Proof.
  intros H. apply create_all_rows in H as [_ Hrows].
  pose proof (NoDup_fst_map_to_list db1) as Hnd.
  rewrite Hrows, fmap_app in Hnd.
  apply NoDup_app in Hnd as (Hcreated & Hdisj & _).
  rewrite <- list_fmap_compose in Hcreated, Hdisj.
  split; [exact Hcreated|].
  intros it Hit. apply eq_None_not_Some. intros [c Hc].
  apply (Hdisj (Item_id it)).
  - apply (list_elem_of_fmap_2 (fst ∘ row_of)) in Hit. exact Hit.
  - apply list_elem_of_fmap. exists (Item_id it, c). split; [reflexivity|].
    by apply elem_of_map_to_list.
Qed.

Lemma create_all_ids_distinct_witness :
  create_all ∅ [(t0, foo)] = Some ([foo_item], db_foo)
  /\ NoDup (Item_id <$> [foo_item])
  /\ (forall it, it ∈ [foo_item] -> (∅ : table) !! Item_id it = None).
Proof.
  assert (H : create_all ∅ [(t0, foo)] = Some ([foo_item], db_foo)).
  { cbn [create_all]. rewrite db_foo_created. reflexivity. }
  split; [exact H|]. exact (create_all_ids_distinct ∅ [(t0, foo)] [foo_item] db_foo H).
Defined.

(** ** Reading *)

(** X8.  Reading never writes: after read-one or read-all the table is the
    one before, whether the handler returned or raised. *)
Theorem reads_leave_table (db : table) (item_id : string) :
  snd (get_db (read_item item_id) db) = db
  /\ snd (get_db read_all_items db) = db.
Proof.
  split; [apply read_item_table|apply read_all_items_table].
Qed.

Lemma Items_of_returns (l : list (string * columns)) (listing : list Item) :
  Items_of (load_row <$> l) = Returns listing ->
  Forall (fun kc => is_Some (fst (snd kc))) l.
Proof.
  revert listing. induction l as [|[k [n d]] l IH]; intros listing H; [constructor|].
  cbn in H. unfold Item_of in H. cbn in H.
  destruct n as [n|]; [|discriminate].
  destruct (Items_of (load_row <$> l)) as [its|] eqn:Hl; [|discriminate].
  constructor; [by exists n|by eapply IH].
Qed.

(** X10.  Read-all returns a list exactly when every stored record has a
    name. *)
Theorem read_all_items_returns_iff (db : table) :
  (exists listing, fst (get_db read_all_items db) = Returns listing) <-> named db.
Proof.
  split.
  - intros [listing H]. rewrite read_all_items_run in H. cbn [fst] in H.
    apply Items_of_returns in H. apply map_Forall_to_list.
    eapply Forall_impl; [exact H|]. by intros [k c].
  - intros Hdb. destruct (read_all_items_named db Hdb) as (listing & H & _).
    exists listing. by rewrite H.
Qed.

(** X11.  The only exception read-all can raise is the validation error of
    the response model; its 404 is never raised. *)
Theorem read_all_items_raises_validation (db : table) (e : exn) :
  fst (get_db read_all_items db) = Raises e -> e = ValidationError.
Proof.
  rewrite read_all_items_run. cbn [fst]. apply Items_of_raises.
Qed.

Lemma read_all_items_raises_validation_witness :
  fst (get_db read_all_items db_blank) = Raises ValidationError
  /\ ValidationError = ValidationError.
Proof.
  assert (H : fst (get_db read_all_items db_blank) = Raises ValidationError).
  { rewrite read_all_items_run. unfold db_blank.
    rewrite map_to_list_singleton. reflexivity. }
  split; [exact H|]. exact (read_all_items_raises_validation db_blank ValidationError H).
Defined.

(** X12.  On a table whose records all have a name, read-all lists every
    record once: the list has as many items as the table has records, no id
    occurs twice, and an item is listed exactly when read-one of its id
    returns it. *)
Theorem read_all_items_agrees_with_read_item (db : table) :
  named db ->
  exists listing,
    get_db read_all_items db = (Returns listing, db)
    /\ length listing = size db
    /\ NoDup (Item_id <$> listing)
    /\ (forall it, it ∈ listing <-> get_db (read_item (Item_id it)) db = (Returns it, db)).
Proof.
  intros Hdb. destruct (read_all_items_named db Hdb) as (listing & Hread & Hrows).
  exists listing. split; [exact Hread|]. split; [|split].
  - rewrite <- length_map_to_list, <- Hrows. by rewrite length_fmap.
  - change (Item_id <$> listing) with ((fst ∘ row_of) <$> listing).
    rewrite list_fmap_compose, Hrows. apply NoDup_fst_map_to_list.
  - intros it.
    rewrite <- (@list_elem_of_fmap_inj _ _ row_of row_of_inj), Hrows.
    destruct it as [i n d]. unfold row_of. cbn [Item_id Item_name Item_description].
    rewrite elem_of_map_to_list, read_item_run. split.
    + intros ->. reflexivity.
    + destruct (db !! i) as [[[n'|] d']|]; cbn; intros H; try discriminate H.
      injection H as -> ->. reflexivity.
Qed.

Lemma named_db_foo : named db_foo.
Proof. apply map_Forall_singleton. by eexists. Qed.

Lemma read_all_items_agrees_with_read_item_witness :
  named db_foo
  /\ exists listing,
       get_db read_all_items db_foo = (Returns listing, db_foo)
       /\ length listing = size db_foo
       /\ NoDup (Item_id <$> listing)
       /\ (forall it, it ∈ listing
                      <-> get_db (read_item (Item_id it)) db_foo = (Returns it, db_foo)).
Proof.
  split; [exact named_db_foo|].
  exact (read_all_items_agrees_with_read_item db_foo named_db_foo).
Defined.

(** ** Deleting *)

(** X13.  Delete answers what read-one of the same id would have answered on
    the same table: the record, the 404, or the validation error. *)
Theorem delete_item_answers_as_read_item (db : table) (item_id : string) :
  fst (get_db (delete_item item_id) db) = fst (get_db (read_item item_id) db).
Proof.
  rewrite delete_item_run, read_item_run. by destruct (db !! item_id).
Qed.

(** X14.  After a delete, whatever it answered, the id is no longer a key of
    the table, every other record is as it was, and read-one of the id
    raises the 404. *)
Theorem delete_item_removes (db : table) (item_id : string) :
  let db' := snd (get_db (delete_item item_id) db) in
  db' !! item_id = None
  /\ (forall j, j <> item_id -> db' !! j = db !! j)
  /\ get_db (read_item item_id) db' = (Raises item_not_found, db').
Proof.
  intros db'.
  assert (Hdb' : db' = delete item_id db).
  { subst db'. rewrite delete_item_run.
    destruct (db !! item_id) eqn:Hk; cbn [snd]; [reflexivity|].
    symmetry. by apply delete_id. }
  rewrite Hdb'. split; [apply lookup_delete_eq|]. split.
  - intros j Hj. by apply lookup_delete_ne.
  - by rewrite read_item_run, lookup_delete_eq.
Qed.

(** X15.  Deleting a stored record shrinks the table by exactly one. *)
Theorem delete_item_size (db : table) (item_id : string) (c : columns) :
  db !! item_id = Some c ->
  S (size (snd (get_db (delete_item item_id) db))) = size db.
Proof.
  intros Hc. rewrite delete_item_run, Hc. cbn [snd].
  rewrite map_size_delete_Some by (by exists c).
  assert (size db <> 0%nat) by (apply map_size_ne_0_lookup; by exists item_id, c).
  lia.
Qed.

Lemma delete_item_size_witness :
  db_foo !! foo_id = Some (Some "foo"%string, Some "bar"%string)
  /\ S (size (snd (get_db (delete_item foo_id) db_foo))) = size db_foo.
Proof.
  split; [apply lookup_singleton_eq|].
  apply (delete_item_size db_foo foo_id (Some "foo"%string, Some "bar"%string)).
  apply lookup_singleton_eq.
Defined.

(** ** Updating *)




(** X18.  An update never adds or removes a record: the table has the same
    number of records after it, whatever the handler answered. *)
Theorem update_item_size (db : table) (item_id : string) (item : ItemUpdate) :
  size (snd (get_db (update_item item_id item) db)) = size db.
Proof. apply update_item_table_size. Qed.

(** ** Records with a name *)

(** X19.  Creating, deleting, and updating with a name keep the table free
    of records without a name, so read-one and read-all keep answering. *)
Theorem named_preserved (db : table) (now : string) (item : ItemCreate)
    (item_id n : string) (d : option string) :
  named db ->
  named (snd (get_db (create_item now item) db))
  /\ named (snd (get_db (delete_item item_id) db))
  /\ named (snd (get_db (update_item item_id
                   {| ItemUpdate_name := Some n; ItemUpdate_description := d |}) db)).
Proof.
  intros Hdb. split; [|split].
  - by apply named_create.
  - by apply named_delete.
  - by apply named_update.
Qed.

Lemma named_preserved_witness :
  named db_foo
  /\ named (snd (get_db (create_item t1 foo) db_foo))
  /\ named (snd (get_db (delete_item foo_id) db_foo))
  /\ named (snd (get_db (update_item foo_id
                   {| ItemUpdate_name := Some "baz"%string; ItemUpdate_description := None |})
                   db_foo)).
Proof.
  split; [exact named_db_foo|].
  exact (named_preserved db_foo t1 foo foo_id "baz" None named_db_foo).
Defined.

(** ** Exceptions of the handlers that take an id *)

(** X20.  Update and delete raise the 404 exactly when the id is not a key
    of the table, as read-one does. *)
Theorem update_delete_not_found_iff (db : table) (item_id : string) (item : ItemUpdate) :
  (fst (get_db (update_item item_id item) db) = Raises item_not_found
   <-> db !! item_id = None)
  /\ (fst (get_db (delete_item item_id) db) = Raises item_not_found
      <-> db !! item_id = None).
Proof.
  rewrite update_item_run, delete_item_run.
  destruct (db !! item_id) as [[[n|] d]|]; unfold Item_of; cbn;
    destruct (ItemUpdate_name item); cbn; split; split; (discriminate || reflexivity).
Qed.

(** ** Sequences of requests *)

Lemma table_after_keys (db : table) (r : request) (k : string) :
  is_Some (table_after db r !! k) ->
  is_Some (db !! k)
  \/ exists now item, r = POST_items now item
       /\ k = generate_id now (ItemCreate_name item) (ItemCreate_description item).
Proof.
  destruct r as [now item|item_id| |item_id item|item_id]; cbn [table_after].
  - rewrite create_item_run. cbv zeta.
    destruct (db !! generate_id _ _ _) eqn:Hk; cbn [snd]; [by left|].
    rewrite lookup_insert. case_decide as Hid; [|by left].
    intros _. right. by exists now, item.
  - rewrite read_item_table. by left.
  - rewrite read_all_items_table. by left.
  - rewrite update_item_run.
    destruct (db !! item_id) eqn:Hk; cbn [snd]; [|by left].
    rewrite lookup_insert. case_decide as Hid; [|by left].
    subst k. intros _. left. by eexists.
  - rewrite delete_item_run.
    destruct (db !! item_id) eqn:Hk; cbn [snd]; [|by left].
    rewrite lookup_delete. case_decide; [by intros [? ?]|by left].
Qed.

(** X22.  Starting from the empty table, after any sequence of requests
    every stored id is 64 lowercase hexadecimal characters. *)
Theorem stored_ids_lower_hex64 (rs : list request) :
  map_Forall (fun k (_ : columns) => lower_hex64 k = true) (serve_all ∅ rs).
Proof.
  unfold serve_all.
  assert (H : map_Forall (fun k (_ : columns) => lower_hex64 k = true) (∅ : table))
    by apply map_Forall_empty.
  revert H. generalize (∅ : table).
  induction rs as [|r rs IH]; intros db Hdb; [exact Hdb|].
  cbn [fold_left]. apply IH. intros k c Hk.
  destruct (table_after_keys db r k) as [[c' Hc']|(now & item & _ & ->)].
  - by exists c.
  - by apply (Hdb k c').
  - apply hexdigest_lower_hex64.
Qed.

(** X23.  Starting from the empty table, the table never holds more records
    than creations were requested. *)
Theorem size_bounded_by_creations (rs : list request) :
  (size (serve_all ∅ rs) <= length (filter (fun r => is_POST r = true) rs))%nat.
Proof.
  unfold serve_all.
  assert (H : forall (rs : list request) (db : table),
             (size (fold_left table_after rs db)
              <= size db + length (filter (fun r => is_POST r = true) rs))%nat).
  { clear rs. induction rs as [|r rs IH]; intros db; [cbn; lia|].
    cbn [fold_left]. etransitivity; [apply IH|].
    destruct r as [now item|item_id| |item_id item|item_id]; cbn [table_after].
    - rewrite filter_cons_True by reflexivity. cbn [length].
      rewrite create_item_run. cbv zeta.
      destruct (db !! _) eqn:Hk; cbn [snd]; [lia|].
      rewrite map_size_insert_None by exact Hk. lia.
    - rewrite filter_cons_False by (cbn; discriminate).
      rewrite read_item_table. lia.
    - rewrite filter_cons_False by (cbn; discriminate).
      rewrite read_all_items_table. lia.
    - rewrite filter_cons_False by (cbn; discriminate).
      rewrite update_item_table_size. lia.
    - rewrite filter_cons_False by (cbn; discriminate).
      rewrite delete_item_run.
      destruct (db !! item_id) eqn:Hk; cbn [snd]; [|lia].
      rewrite map_size_delete_Some by (by eexists). lia. }
  specialize (H rs ∅). rewrite map_size_empty in H. exact H.
Qed.

(** X24.  Starting from the empty table, as long as no update without a
    name is served, every stored record has a name, so read-all returns the
    records instead of raising. *)
Theorem named_unless_nameless_update (rs : list request) :
  Forall gives_name rs ->
  named (serve_all ∅ rs)
  /\ exists listing, fst (get_db read_all_items (serve_all ∅ rs)) = Returns listing.
Proof.
  intros Hrs.
  assert (H : named (serve_all ∅ rs)).
  { unfold serve_all.
    assert (H0 : named (∅ : table)) by apply map_Forall_empty.
    revert H0. generalize (∅ : table).
    induction Hrs as [|r rs Hr _ IH]; intros db Hdb; [exact Hdb|].
    cbn [fold_left]. apply IH.
    destruct r as [now item|item_id| |item_id [[n|] d]|item_id]; cbn [table_after].
    - by apply named_create.
    - by rewrite read_item_table.
    - by rewrite read_all_items_table.
    - by apply named_update.
    - by destruct Hr.
    - by apply named_delete. }
  split; [exact H|].
  destruct (read_all_items_named _ H) as (listing & Hread & _).
  exists listing. by rewrite Hread.
Qed.

Lemma named_unless_nameless_update_witness :
  Forall gives_name [POST_items t0 foo; PUT_item foo_id baz; GET_items; DELETE_item foo_id]
  /\ named (serve_all ∅ [POST_items t0 foo; PUT_item foo_id baz; GET_items;
                         DELETE_item foo_id])
  /\ exists listing,
       fst (get_db read_all_items
              (serve_all ∅ [POST_items t0 foo; PUT_item foo_id baz; GET_items;
                            DELETE_item foo_id]))
       = Returns listing.
Proof.
  assert (H : Forall gives_name
                [POST_items t0 foo; PUT_item foo_id baz; GET_items; DELETE_item foo_id]).
  { repeat constructor. by eexists. }
  split; [exact H|]. exact (named_unless_nameless_update _ H).
Defined.

(** ** What the id is made of *)

Lemma string_app_assoc (a b c : string) : ((a ++ b) ++ c = a ++ (b ++ c))%string.
Proof.
  induction a as [|x a IH]; [reflexivity|].
  change (String x ((a ++ b) ++ c) = String x (a ++ (b ++ c)))%string.
  by rewrite IH.
Qed.

(** X25.  The id does not tell the name from the description: the hashed
    text joins them with a dash, so moving a dash-separated tail of the name
    to the front of the description gives the same id at the same clock
    reading. *)
Theorem generate_id_separator (now n m d : string) :
  generate_id now (n ++ "-" ++ m) (Some d) = generate_id now n (Some (m ++ "-" ++ d)%string).
Proof.
  unfold generate_id, raw_data, fstr. cbn [default from_option]. unfold id.
  apply (f_equal (fun s => SHA256.hexdigest (encode s))).
  by rewrite !string_app_assoc.
Qed.

(** X26.  A description left out is hashed as the text None: right after an
    item without description was created, creating at the same clock reading
    an item of the same name whose description is the string None is
    rejected, and the table keeps the first item only. *)
Theorem create_item_none_collides (db : table) (now name : string) :
  db !! generate_id now name None = None ->
  get_db (create_item now {| ItemCreate_name := name;
                             ItemCreate_description := Some "None"%string |})
         (snd (get_db (create_item now {| ItemCreate_name := name;
                                          ItemCreate_description := None |}) db))
  = (Raises IntegrityError, <[generate_id now name None := (Some name, None)]> db).
Proof.
  intros Hfresh. rewrite (create_item_run db). cbv zeta.
  cbn [ItemCreate_name ItemCreate_description]. rewrite Hfresh. cbn [snd].
  rewrite create_item_run. cbv zeta. cbn [ItemCreate_name ItemCreate_description].
  change (generate_id now name (Some "None"%string)) with (generate_id now name None).
  by rewrite lookup_insert_eq.
Qed.

Lemma create_item_none_collides_witness :
  (∅ : table) !! generate_id t0 "foo" None = None
  /\ get_db (create_item t0 {| ItemCreate_name := "foo";
                               ItemCreate_description := Some "None"%string |})
            (snd (get_db (create_item t0 {| ItemCreate_name := "foo";
                                            ItemCreate_description := None |}) ∅))
     = (Raises IntegrityError, <[generate_id t0 "foo" None := (Some "foo"%string, None)]> ∅).
Proof.
  split; [apply lookup_empty|].
  apply (create_item_none_collides ∅ t0 "foo"). apply lookup_empty.
Defined.

(** * Revised and further properties *)

(** ** Creating *)

(** X2.  A creation that raises leaves the table exactly as it was: nothing
    of the rejected record is stored. *)
Theorem create_item_raise_keeps_table (db : table) (now : string) (item : ItemCreate)
    (e : exn) :
  fst (get_db (create_item now item) db) = Raises e ->
  snd (get_db (create_item now item) db) = db.
Proof.
  rewrite create_item_run. cbv zeta.
  destruct (db !! _); cbn [fst snd]; [reflexivity|discriminate].
Qed.

Lemma create_item_raise_keeps_table_witness :
  fst (get_db (create_item t0 foo) db_foo) = Raises IntegrityError
  /\ snd (get_db (create_item t0 foo) db_foo) = db_foo.
Proof.
  assert (H : fst (get_db (create_item t0 foo) db_foo) = Raises IntegrityError).
  { rewrite create_item_run. cbv zeta. rewrite generate_id_of_foo.
    unfold db_foo. rewrite lookup_singleton_eq. reflexivity. }
  split; [exact H|].
  exact (create_item_raise_keeps_table db_foo t0 foo IntegrityError H).
Defined.

(** X4.  Two creations whose generated ids differ do not interfere: served
    in either order they leave the same record under every id, and what the
    second one answers does not depend on whether the first was served. *)
Theorem create_item_order_same_records (db : table) (now1 now2 : string)
    (item1 item2 : ItemCreate) :
  generate_id now1 (ItemCreate_name item1) (ItemCreate_description item1)
  <> generate_id now2 (ItemCreate_name item2) (ItemCreate_description item2) ->
  (forall k,
      snd (get_db (create_item now2 item2) (snd (get_db (create_item now1 item1) db))) !! k
      = snd (get_db (create_item now1 item1) (snd (get_db (create_item now2 item2) db))) !! k)
  /\ fst (get_db (create_item now2 item2) (snd (get_db (create_item now1 item1) db)))
     = fst (get_db (create_item now2 item2) db).
Proof.
  intros Hne.
  rewrite (create_item_run db now1), (create_item_run db now2). cbv zeta.
  destruct (db !! generate_id now1 _ _) eqn:H1;
    destruct (db !! generate_id now2 _ _) eqn:H2; cbn [snd fst];
    rewrite !create_item_run; cbv zeta;
    rewrite ?lookup_insert_ne by (by apply not_eq_sym || exact Hne);
    rewrite ?H1, ?H2; cbn [snd fst]; (split; [|reflexivity]); intros k;
    try reflexivity.
  by rewrite insert_insert_ne.
Qed.

Lemma create_item_order_same_records_witness :
  generate_id t0 (ItemCreate_name foo) (ItemCreate_description foo)
  <> generate_id t1 (ItemCreate_name foo) (ItemCreate_description foo)
  /\ (forall k,
         snd (get_db (create_item t1 foo) (snd (get_db (create_item t0 foo) ∅))) !! k
         = snd (get_db (create_item t0 foo) (snd (get_db (create_item t1 foo) ∅))) !! k)
  /\ fst (get_db (create_item t1 foo) (snd (get_db (create_item t0 foo) ∅)))
     = fst (get_db (create_item t1 foo) ∅).
Proof.
  assert (H : generate_id t0 (ItemCreate_name foo) (ItemCreate_description foo)
              <> generate_id t1 (ItemCreate_name foo) (ItemCreate_description foo)).
  { rewrite generate_id_of_foo, generate_id_of_foo1. discriminate. }
  split; [exact H|]. exact (create_item_order_same_records ∅ t0 t1 foo foo H).
Defined.

(** ** Exceptions of read-one and delete *)

(** X21.  Read-one and delete, whose only input is the id of the path, raise
    nothing but the 404 and the validation error of the response model. *)
Theorem read_delete_raise_only (db : table) (item_id : string) (e : exn) :
  fst (get_db (read_item item_id) db) = Raises e
  \/ fst (get_db (delete_item item_id) db) = Raises e ->
  e = item_not_found \/ e = ValidationError.
Proof.
  rewrite read_item_run, delete_item_run.
  unfold Item_of. cbn.
  destruct (db !! item_id) as [[[n|] d]|]; cbn;
    intros [H|H]; try discriminate H; injection H as <-; auto.
Qed.

Lemma read_delete_raise_only_witness :
  (fst (get_db (read_item foo_id) db_blank) = Raises ValidationError
   \/ fst (get_db (delete_item foo_id) db_blank) = Raises ValidationError)
  /\ (ValidationError = item_not_found \/ ValidationError = ValidationError).
Proof.
  assert (H : fst (get_db (read_item foo_id) db_blank) = Raises ValidationError).
  { rewrite read_item_run. unfold db_blank. rewrite lookup_singleton_eq. reflexivity. }
  split; [by left|].
  exact (read_delete_raise_only db_blank foo_id ValidationError (or_introl H)).
Defined.

(** ** The identifier generator on Python strings *)

Ltac divmod := Z.div_mod_to_equations; lia.

Ltac decide_cmp :=
  repeat match goal with
  | |- context [Z.leb ?a ?b] =>
      first [ rewrite (proj2 (Z.leb_le a b)) by lia
            | rewrite (proj2 (Z.leb_gt a b)) by lia ]
  | |- context [Z.ltb ?a ?b] =>
      first [ rewrite (proj2 (Z.ltb_lt a b)) by lia
            | rewrite (proj2 (Z.ltb_ge a b)) by lia ]
  end; cbn [andb negb].

Lemma utf8_decode_1 b0 rest :
  0 <= b0 < 0x80 -> utf8_decode (b0 :: rest) = prepend b0 (utf8_decode rest).
Proof. intros H. cbn [utf8_decode]. decide_cmp. reflexivity. Qed.

Lemma utf8_decode_2 b0 b1 rest :
  0xC2 <= b0 < 0xE0 -> 0x80 <= b1 < 0xC0 ->
  utf8_decode (b0 :: b1 :: rest)
  = prepend ((b0 - 0xC0) * 64 + (b1 - 0x80)) (utf8_decode rest).
Proof.
  intros H0 H1. cbn [utf8_decode]. unfold continuation. decide_cmp. reflexivity.
Qed.

Lemma utf8_decode_3 b0 b1 b2 rest :
  0xE0 <= b0 < 0xF0 -> 0x80 <= b1 < 0xC0 -> 0x80 <= b2 < 0xC0 ->
  0x800 <= (b0 - 0xE0) * 4096 + (b1 - 0x80) * 64 + (b2 - 0x80) ->
  surrogate ((b0 - 0xE0) * 4096 + (b1 - 0x80) * 64 + (b2 - 0x80)) = false ->
  utf8_decode (b0 :: b1 :: b2 :: rest)
  = prepend ((b0 - 0xE0) * 4096 + (b1 - 0x80) * 64 + (b2 - 0x80)) (utf8_decode rest).
Proof.
  intros H0 H1 H2 H3 H4. cbn [utf8_decode]. cbv zeta. rewrite H4.
  unfold continuation. decide_cmp. reflexivity.
Qed.

Lemma utf8_decode_4 b0 b1 b2 b3 rest :
  0xF0 <= b0 < 0xF5 -> 0x80 <= b1 < 0xC0 -> 0x80 <= b2 < 0xC0 -> 0x80 <= b3 < 0xC0 ->
  0x10000 <= (b0 - 0xF0) * 262144 + (b1 - 0x80) * 4096 + (b2 - 0x80) * 64 + (b3 - 0x80)
          <= 0x10FFFF ->
  utf8_decode (b0 :: b1 :: b2 :: b3 :: rest)
  = prepend ((b0 - 0xF0) * 262144 + (b1 - 0x80) * 4096 + (b2 - 0x80) * 64 + (b3 - 0x80))
            (utf8_decode rest).
Proof.
  intros H0 H1 H2 H3 H4. cbn [utf8_decode]. cbv zeta.
  unfold continuation, surrogate. decide_cmp. reflexivity.
Qed.

(** Reading back the bytes of one code point gives the code point. *)
Lemma utf8_decode_utf8 c b rest :
  utf8 c = Some b -> utf8_decode (b ++ rest) = prepend c (utf8_decode rest).
Proof.
  unfold utf8. intros H.
  destruct (Z.ltb_spec c 0); [discriminate|].
  destruct (Z.ltb_spec c 0x80).
  { injection H as <-. apply utf8_decode_1. lia. }
  destruct (Z.ltb_spec c 0x800).
  { injection H as <-. cbn [app]. rewrite utf8_decode_2 by divmod.
    f_equal. divmod. }
  destruct (Z.ltb_spec c 0x10000).
  { destruct (surrogate c) eqn:Hs; [discriminate|]. injection H as <-. cbn [app].
    assert (Hc : (0xE0 + c / 4096 - 0xE0) * 4096 + (0x80 + (c / 64) mod 64 - 0x80) * 64
                 + (0x80 + c mod 64 - 0x80) = c) by divmod.
    rewrite utf8_decode_3; rewrite ?Hc; try divmod; [reflexivity|exact Hs]. }
  destruct (Z.ltb_spec c 0x110000); [|discriminate].
  injection H as <-. cbn [app].
  assert (Hc : (0xF0 + c / 262144 - 0xF0) * 262144 + (0x80 + (c / 4096) mod 64 - 0x80) * 4096
               + (0x80 + (c / 64) mod 64 - 0x80) * 64 + (0x80 + c mod 64 - 0x80) = c)
    by divmod.
  rewrite utf8_decode_4; rewrite ?Hc; try divmod. reflexivity.
Qed.

Lemma utf8_scalar c : scalar c = true -> exists b, utf8 c = Some b.
Proof.
  unfold scalar, code_point, utf8. intros H.
  apply andb_prop in H as [H Hs]. apply andb_prop in H as [H0 H1].
  apply Z.leb_le in H0, H1. apply negb_true_iff in Hs. rewrite Hs.
  repeat match goal with |- context [Z.ltb ?a ?b] => destruct (Z.ltb_spec a b) end;
    try lia; by eexists.
Qed.

(** A string of scalar values has UTF-8 bytes, and they read back as it. *)
Lemma str_encode_scalar (s : list Z) :
  forallb scalar s = true ->
  exists data, str_encode s = Returns data /\ utf8_decode data = Some s.
Proof.
  induction s as [|c s IH]; cbn [forallb str_encode]; intros H.
  - by exists [].
  - apply andb_prop in H as [Hc Hs].
    destruct (utf8_scalar c Hc) as [b Hb]. destruct (IH Hs) as (data & Hdata & Hback).
    rewrite Hb, Hdata. exists (b ++ data). split; [reflexivity|].
    rewrite (utf8_decode_utf8 c b data Hb), Hback. reflexivity.
Qed.

Lemma str_encode_raises (s : list Z) (e : exn) :
  str_encode s = Raises e -> e = UnicodeEncodeError.
Proof.
  induction s as [|c s IH]; cbn [str_encode]; [discriminate|].
  destruct (utf8 c); [|by intros [= <-]].
  destruct (str_encode s); [discriminate|].
  intros [= <-]. by apply IH.
Qed.

Lemma utf8_None_iff c : code_point c = true -> utf8 c = None <-> surrogate c = true.
Proof.
  unfold code_point, utf8, surrogate. intros H.
  apply andb_prop in H as [H0 H1]. apply Z.leb_le in H0, H1.
  repeat match goal with
         | |- context [Z.ltb ?a ?b] => destruct (Z.ltb_spec a b)
         | |- context [Z.leb ?a ?b] => destruct (Z.leb_spec a b)
         end; cbn [andb]; try lia; split; (discriminate || reflexivity).
Qed.

Lemma str_encode_raises_iff (s : list Z) :
  forallb code_point s = true ->
  str_encode s = Raises UnicodeEncodeError <-> existsb surrogate s = true.
Proof.
  induction s as [|c s IH]; cbn [forallb existsb str_encode]; intros H.
  - split; discriminate.
  - apply andb_prop in H as [Hc Hs]. specialize (IH Hs).
    pose proof (utf8_None_iff c Hc) as Hnone.
    destruct (utf8 c) as [b|].
    + destruct (surrogate c); [discriminate (proj2 Hnone eq_refl)|]. cbn [orb].
      rewrite <- IH. destruct (str_encode s) as [bs|e]; [split; discriminate|].
      split; congruence.
    + rewrite (proj1 Hnone eq_refl). by split.
Qed.

Lemma str_encode_app (a b x y : list Z) :
  str_encode a = Returns x -> str_encode b = Returns y ->
  str_encode (a ++ b) = Returns (x ++ y).
Proof.
  revert x. induction a as [|c a IH]; cbn [str_encode app]; intros x Ha Hb.
  - injection Ha as <-. exact Hb.
  - destruct (utf8 c) as [bc|]; [|discriminate].
    destruct (str_encode a) as [xa|]; [|discriminate].
    injection Ha as <-. rewrite (IH xa eq_refl Hb). by rewrite app_assoc.
Qed.

Lemma encode_app (a b : string) : encode (a ++ b) = encode a ++ encode b.
Proof.
  induction a as [|x a IH]; [reflexivity|].
  change (encode (String x (a ++ b)) = encode (String x a) ++ encode b).
  unfold encode in *. cbn [list_ascii_of_string map app]. by rewrite IH.
Qed.

(** C8, at a name that holds a lone surrogate.  U+D800 is a code point a
    [str] can hold; the f-string accepts it and [encode()] raises, so
    [generate_id] returns no id. *)
Theorem generate_id_lone_surrogate :
  code_point 0xD800 = true
  /\ generate_id_str t0_str [0xD800] (Some bar_str) = Raises UnicodeEncodeError.
Proof. split; reflexivity. Qed.

Example generate_id_known : generate_id_known_answers.
Proof. split; vm_compute; reflexivity. Qed.

(** X28.  On a name, a description and a clock text made of Unicode scalar
    values, [generate_id] returns the hexadecimal SHA-256 digest of bytes
    that read back, as UTF-8, as the text name, dash, description, dash,
    clock; the result is 64 lowercase hexadecimal characters.  On the two
    sample inputs it is what Python returns. *)
Theorem generate_id_str_spec (now name description : list Z) :
  forallb scalar now = true ->
  forallb scalar name = true ->
  forallb scalar description = true ->
  (exists data,
      utf8_decode data = Some (name ++ [45] ++ description ++ [45] ++ now)
      /\ generate_id_str now name (Some description) = Returns (SHA256.hexdigest data)
      /\ lower_hex64 (SHA256.hexdigest data) = true)
  /\ generate_id_known_answers.
Proof.
  intros Hnow Hname Hdesc. split; [|exact generate_id_known].
  destruct (str_encode_scalar (raw_data_str now name (Some description)))
    as (data & Hdata & Hback).
  { unfold raw_data_str, fstr_str. cbn [default from_option]. unfold id.
    rewrite !forallb_app, Hnow, Hname, Hdesc. reflexivity. }
  exists data. split; [exact Hback|].
  unfold generate_id_str. rewrite Hdata.
  split; [reflexivity|apply hexdigest_lower_hex64].
Qed.

Lemma generate_id_str_spec_witness :
  forallb scalar t0_str = true
  /\ forallb scalar [233] = true
  /\ forallb scalar [26085; 26412; 128512] = true
  /\ exists data,
       utf8_decode data = Some ([233] ++ [45] ++ [26085; 26412; 128512] ++ [45] ++ t0_str)
       /\ generate_id_str t0_str [233] (Some [26085; 26412; 128512])
          = Returns (SHA256.hexdigest data)
       /\ lower_hex64 (SHA256.hexdigest data) = true.
Proof.
  split; [reflexivity|]. split; [reflexivity|]. split; [reflexivity|].
  apply (generate_id_str_spec t0_str [233] [26085; 26412; 128512]); reflexivity.
Defined.

(** X29.  On Python strings, [generate_id] raises exactly when the name, the
    description or the clock text holds a surrogate, and what it raises is
    the [UnicodeEncodeError] of [encode()]. *)
Theorem generate_id_str_raises_iff (now name description : list Z) :
  forallb code_point now = true ->
  forallb code_point name = true ->
  forallb code_point description = true ->
  (generate_id_str now name (Some description) = Raises UnicodeEncodeError
   <-> existsb surrogate name || existsb surrogate description || existsb surrogate now
       = true)
  /\ (forall e, generate_id_str now name (Some description) = Raises e ->
                e = UnicodeEncodeError).
Proof.
  intros Hnow Hname Hdesc. split.
  - assert (Hraw : forallb code_point (raw_data_str now name (Some description)) = true).
    { unfold raw_data_str, fstr_str. cbn [default from_option]. unfold id.
      rewrite !forallb_app, Hnow, Hname, Hdesc. reflexivity. }
    apply str_encode_raises_iff in Hraw.
    assert (Hex : existsb surrogate (raw_data_str now name (Some description))
                  = existsb surrogate name || existsb surrogate description
                    || existsb surrogate now).
    { unfold raw_data_str, fstr_str. cbn [default from_option]. unfold id.
      rewrite !existsb_app. cbn [existsb]. unfold surrogate at 2 4. cbn.
      by rewrite orb_assoc. }
    rewrite <- Hex, <- Hraw. unfold generate_id_str.
    destruct (str_encode _); split; congruence.
  - intros e. unfold generate_id_str.
    destruct (str_encode _) eqn:Hs; [discriminate|].
    intros [= <-]. by apply str_encode_raises in Hs.
Qed.

Lemma generate_id_str_raises_iff_witness :
  forallb code_point t0_str = true
  /\ forallb code_point [0xD800] = true
  /\ forallb code_point bar_str = true
  /\ (generate_id_str t0_str [0xD800] (Some bar_str) = Raises UnicodeEncodeError
      <-> existsb surrogate [0xD800] || existsb surrogate bar_str
          || existsb surrogate t0_str = true).
Proof.
  split; [reflexivity|]. split; [reflexivity|]. split; [reflexivity|].
  apply (generate_id_str_raises_iff t0_str [0xD800] bar_str); reflexivity.
Defined.

(** X30.  The handlers' [generate_id], on texts held as UTF-8, is
    [generate_id] on the Python strings those texts encode: whenever the
    name, description and clock text encode to the given texts, both return
    the same id, also when the description is [None]. *)
Theorem generate_id_str_text (now name description : string)
    (now' name' description' : list Z) :
  str_encode now' = Returns (encode now) ->
  str_encode name' = Returns (encode name) ->
  str_encode description' = Returns (encode description) ->
  generate_id_str now' name' (Some description')
  = Returns (generate_id now name (Some description))
  /\ generate_id_str now' name' None = Returns (generate_id now name None).
Proof.
  intros Hnow Hname Hdesc.
  assert (Hdash : str_encode [45] = Returns (encode "-")) by reflexivity.
  assert (Hnone : str_encode [78; 111; 110; 101] = Returns (encode "None")) by reflexivity.
  unfold generate_id_str, generate_id, raw_data_str, raw_data, fstr_str, fstr.
  cbn [default from_option]. unfold id. rewrite !encode_app. split.
  - by rewrite (str_encode_app _ _ _ _ Hname
                  (str_encode_app _ _ _ _ Hdash
                     (str_encode_app _ _ _ _ Hdesc
                        (str_encode_app _ _ _ _ Hdash Hnow)))).
  - by rewrite (str_encode_app _ _ _ _ Hname
                  (str_encode_app _ _ _ _ Hdash
                     (str_encode_app _ _ _ _ Hnone
                        (str_encode_app _ _ _ _ Hdash Hnow)))).
Qed.

Lemma generate_id_str_text_witness :
  str_encode t0_str = Returns (encode t0)
  /\ str_encode foo_str = Returns (encode "foo")
  /\ str_encode bar_str = Returns (encode "bar")
  /\ generate_id_str t0_str foo_str (Some bar_str)
     = Returns (generate_id t0 "foo" (Some "bar"%string))
  /\ generate_id_str t0_str foo_str None = Returns (generate_id t0 "foo" None).
Proof.
  split; [reflexivity|]. split; [reflexivity|]. split; [reflexivity|].
  apply (generate_id_str_text t0 "foo" "bar" t0_str foo_str bar_str); reflexivity.
Defined.
